(** * A FastAPI service with Prometheus metrics: handlers and registry

    Shallow embedding of [src/app/main.py]: three route handlers ([root],
    [submit], [metrics]) over a process-wide metrics registry holding two
    counters and one gauge.

    Conventions of the embedding:
    - the registry is threaded explicitly through the handlers (a small
      state-and-exception monad, [handler]);
    - [time.time()] is an input of the handler that reads it;
    - Python floats are abstracted by exact numbers: a counter, which only
      ever receives the default increment 1 starting from 0, is a [Z]; the
      gauge and the clock are rationals ([Q]); a float inside a request
      payload is a rational or one of the three non-finite floats;
    - a Python [str] is held as the bytes of its UTF-8 form; a lone
      surrogate, which Python's [str] can hold and UTF-8 cannot encode, is
      held in the three-byte form [ED A0..BF 80..BF];
    - a JSON object is an association list in document order. *)

From Stdlib Require Import ZArith QArith Qround Qabs Ascii DecimalString DecimalPos DecimalZ Lia Lqa.
From stdpp Require Import gmap strings list fin_maps relations.

(** ** JSON values and request payloads *)

(** A float as the JSON parser of the host language yields it: a number
    too large for a double is read as an infinity (for instance [1e999]),
    and the parser also reads the constants [Infinity], [-Infinity] and
    [NaN]. *)
Inductive pyfloat : Type :=
| Finite (q : Q)
| Infinity
| NegInfinity
| NaN.

Definition is_finite (f : pyfloat) : bool :=
  match f with
  | Finite _ => true
  | _ => false
  end.

#[warnings="-register-all"]
Inductive json : Type :=
| JNull
| JBool (b : bool)
| JInt (n : Z)
| JFloat (f : pyfloat)
| JString (s : string)
| JArray (items : list json)
| JObject (fields : list (string * json)).

(** The [dict] that FastAPI hands to [submit] for a JSON object body. *)
Abbreviation dict := (list (string * json)).

(** Python truthiness of a dict: [not data] holds exactly for [{}]. *)
Definition truthy (data : dict) : bool :=
  match data with
  | [] => false
  | _ :: _ => true
  end.

(** Does the text hold a lone surrogate (byte [ED] followed by a byte of
    [A0..BF])? *)
Fixpoint has_surrogate (s : string) : bool :=
  match s with
  | String c ((String c' _) as s') =>
      (Ascii.eqb c "237" && (160 <=? N_of_ascii c')%N) || has_surrogate s'
  | _ => false
  end.

(** Can the framework write the value as a JSON response? Its serialiser
    refuses a non-finite float ([allow_nan=False]), and the UTF-8 encoding
    of the result fails on a lone surrogate in a string or in a key. *)
Fixpoint serialisable (j : json) : bool :=
  match j with
  | JNull => true
  | JBool _ => true
  | JInt _ => true
  | JFloat f => is_finite f
  | JString s => negb (has_surrogate s)
  | JArray items => forallb serialisable items
  | JObject fields =>
      forallb (fun kv : string * json =>
                 let (k, v) := kv in negb (has_surrogate k) && serialisable v)
              fields
  end.

(** ** Exceptions and responses *)

Record HTTPException := mkHTTPException {
  exc_status_code : Z;
  detail : string
}.

(** [starlette.responses.Response(content, media_type=...)]; the status code
    of a response built this way is the default 200. *)
Record Response := mkResponse {
  content : string;
  media_type : string
}.

(** What a route function hands back to the framework. *)
Inductive outcome (A : Type) : Type :=
| Return (a : A)
| Raise (e : HTTPException).
Arguments Return {A} a.
Arguments Raise {A} e.

(** What goes on the wire. *)
Inductive Body : Type :=
| JSONBody (j : json)
| RawBody (text : string) (mime : string).

Record HTTPResponse := mkHTTPResponse {
  status_code : Z;
  body : Body
}.

(** ** Metrics and the collector registry *)

(** A metric object: its documentation string and its current value. *)
Inductive Metric : Type :=
| MCounter (documentation : string) (value : Z)
| MGauge (documentation : string) (value : Q).

Definition documentation (m : Metric) : string :=
  match m with
  | MCounter d _ => d
  | MGauge d _ => d
  end.

(** [names] keeps the registration order, [collectors] maps a metric name
    to the metric object registered under it. *)
Record CollectorRegistry := mkRegistry {
  names : list string;
  collectors : gmap string Metric
}.

Definition empty_registry : CollectorRegistry :=
  {| names := []; collectors := ∅ |}.

(** Registration refuses a name that is already taken. *)
Definition register (name : string) (m : Metric) (reg : CollectorRegistry)
  : option CollectorRegistry :=
  match collectors reg !! name with
  | Some _ => None
  | None => Some {| names := names reg ++ [name];
                    collectors := <[name := m]> (collectors reg) |}
  end.

(** Modelled from the spec: the constructors [Counter(name, documentation)]
    and [Gauge(name, documentation)] of the metrics library, which is not
    part of the sources. A new metric starts at 0 and is registered under
    its name. *)
Definition Counter (name doc : string) (reg : CollectorRegistry)
  : option CollectorRegistry :=
  register name (MCounter doc 0) reg.

Definition Gauge (name doc : string) (reg : CollectorRegistry)
  : option CollectorRegistry :=
  register name (MGauge doc 0) reg.

(** Modelled from the spec: [inc()] with its default amount 1 and
    [set(value)], the two mutators of the metrics library that the
    handlers call. A metric object is addressed by the name it was
    registered under. [set] replaces the value of a gauge; a counter has
    no [set]. *)
Definition inc_metric (m : Metric) : Metric :=
  match m with
  | MCounter d v => MCounter d (v + 1)
  | MGauge d v => MGauge d (v + 1)
  end.

Definition set_metric (q : Q) (m : Metric) : Metric :=
  match m with
  | MCounter d v => MCounter d v
  | MGauge d _ => MGauge d q
  end.

Definition inc (name : string) (reg : CollectorRegistry) : CollectorRegistry :=
  {| names := names reg;
     collectors := alter inc_metric name (collectors reg) |}.

Definition set (name : string) (q : Q) (reg : CollectorRegistry)
  : CollectorRegistry :=
  {| names := names reg;
     collectors := alter (set_metric q) name (collectors reg) |}.

Definition counter_value (name : string) (reg : CollectorRegistry) : option Z :=
  match collectors reg !! name with
  | Some (MCounter _ v) => Some v
  | _ => None
  end.

Definition gauge_value (name : string) (reg : CollectorRegistry) : option Q :=
  match collectors reg !! name with
  | Some (MGauge _ v) => Some v
  | _ => None
  end.

(** ** The module-level metrics (lines 10-12) *)

Definition REQUEST_COUNT : string := "request_count".
Definition POST_REQUEST_COUNT : string := "post_request_count".
Definition RANDOM_GAUGE : string := "random_gauge".

Definition declare_metrics : option CollectorRegistry :=
  reg1 ← Counter REQUEST_COUNT "Total request count" empty_registry;
  reg2 ← Counter POST_REQUEST_COUNT "Total POST request count" reg1;
  Gauge RANDOM_GAUGE "A random gauge value" reg2.

(** The registry with the three metrics holding the given values. *)
Definition registry_with (rc pc : Z) (g : Q) : CollectorRegistry :=
  {| names := [REQUEST_COUNT; POST_REQUEST_COUNT; RANDOM_GAUGE];
     collectors :=
       <[RANDOM_GAUGE := MGauge "A random gauge value" g]>
       (<[POST_REQUEST_COUNT := MCounter "Total POST request count" pc]>
       (<[REQUEST_COUNT := MCounter "Total request count" rc]> ∅)) |}.

(** The registry once the module has been imported. *)
Definition REGISTRY : CollectorRegistry := registry_with 0 0 0.

(** ** The handler monad *)

Definition handler (A : Type) : Type :=
  CollectorRegistry -> outcome A * CollectorRegistry.

Definition ret {A} (a : A) : handler A := fun reg => (Return a, reg).

Definition raise {A} (e : HTTPException) : handler A := fun reg => (Raise e, reg).

Definition bind {A B} (m : handler A) (k : A -> handler B) : handler B :=
  fun reg =>
    match m reg with
    | (Return a, reg') => k a reg'
    | (Raise e, reg') => (Raise e, reg')
    end.

Definition modify (f : CollectorRegistry -> CollectorRegistry) : handler unit :=
  fun reg => (Return tt, f reg).

Definition get_registry : handler CollectorRegistry :=
  fun reg => (Return reg, reg).

Notation "m ;;; k" := (bind m (fun _ => k))
  (at level 100, k at level 200, right associativity).
Notation "x <~ m ;;; k" := (bind m (fun x => k))
  (at level 100, m at next level, k at level 200, right associativity).

(** Python's [%] on floats with a positive right operand: the remainder
    of the floored division. *)
Definition py_mod (x m : Q) : Q := (x - m * inject_Z (Qfloor (x / m)))%Q.

(** ** The route handlers *)

(** The body that [root] returns. *)
Definition greeting : json := JObject [("message", JString "Hello World")].

(** [GET /]; [now] is the value of [time.time()]. *)
Definition root (now : Q) : handler json :=
  modify (inc REQUEST_COUNT) ;;;
  modify (set RANDOM_GAUGE (py_mod now 60)) ;;;
  ret greeting.

(** [POST /submit]. *)
Definition submit (data : dict) : handler json :=
  if negb (truthy data) then
    raise {| exc_status_code := 400; detail := "No data provided" |}
  else
    modify (inc POST_REQUEST_COUNT) ;;;
    ret (JObject [("received_data", JObject data)]).

(** ** Text helpers *)

Definition LF : ascii := "010"%char.

Definition string_of_Z (n : Z) : string := NilZero.string_of_int (Z.to_int n).

Definition Z_of_string (s : string) : option Z :=
  option_map Z.of_int (NilZero.int_of_string s).

(** A text without line feed. *)
Fixpoint one_line (s : string) : bool :=
  match s with
  | EmptyString => true
  | String c s' => negb (Ascii.eqb c LF) && one_line s'
  end.

(** A plain decimal rendering of a rational, six fractional digits,
    truncated: one possible float formatter. *)
Fixpoint frac_digits (n : nat) (r : Q) : string :=
  match n with
  | O => ""
  | S n' =>
      let d := Qfloor (10 * r) in
      string_of_Z d +:+ frac_digits n' (10 * r - inject_Z d)%Q
  end.

Definition decimal_repr (q : Q) : string :=
  let a := Qabs q in
  (if Qlt_le_dec q 0 then "-" else "") +:+
  string_of_Z (Qfloor a) +:+ "." +:+ frac_digits 6 (a - inject_Z (Qfloor a))%Q.

(** ** Reading a decimal number

    [digits.digits], with an optional minus sign in front. *)

Definition digit_of_ascii (c : ascii) : option Z :=
  (if Ascii.eqb c "0" then Some 0
   else if Ascii.eqb c "1" then Some 1
   else if Ascii.eqb c "2" then Some 2
   else if Ascii.eqb c "3" then Some 3
   else if Ascii.eqb c "4" then Some 4
   else if Ascii.eqb c "5" then Some 5
   else if Ascii.eqb c "6" then Some 6
   else if Ascii.eqb c "7" then Some 7
   else if Ascii.eqb c "8" then Some 8
   else if Ascii.eqb c "9" then Some 9
   else None)%Z.

(** The digits of [s], read from the left onto [acc]. *)
Fixpoint read_digits (s : string) (acc : Z) : option Z :=
  match s with
  | EmptyString => Some acc
  | String c s' =>
      match digit_of_ascii c with
      | Some d => read_digits s' (10 * acc + d)
      | None => None
      end
  end.

(** Does the character occur in the text? *)
Fixpoint occurs (c : ascii) (s : string) : bool :=
  match s with
  | EmptyString => false
  | String a s' => Ascii.eqb a c || occurs c s'
  end.

(** Cut a text at the first occurrence of a character. *)
Fixpoint break_at (c : ascii) (s : string) : option (string * string) :=
  match s with
  | EmptyString => None
  | String a s' =>
      if Ascii.eqb a c then Some ("", s')
      else match break_at c s' with
           | Some (w, r) => Some (String a w, r)
           | None => None
           end
  end.

Definition starts_with_minus (s : string) : bool :=
  match s with
  | String c _ => Ascii.eqb c "-"
  | EmptyString => false
  end.

Definition read_decimal (s : string) : option Q :=
  match break_at "." s with
  | Some (ip, fp) =>
      match Z_of_string ip, fp, read_digits fp 0 with
      | Some i, String _ _, Some f =>
          let frac := (inject_Z f
                       / inject_Z (10 ^ Z.of_nat (String.length fp)))%Q in
          Some (if starts_with_minus ip then inject_Z i - frac
                else inject_Z i + frac)%Q
      | _, _, _ => None
      end
  | None => None
  end.

(** A float formatter that prints a non-negative value as a plain decimal
    number, exact or cut, less than a millionth below the value. *)
Definition prints_decimals (repr : Q -> string) : Prop :=
  ∀ q : Q, (0 <= q)%Q ->
    ∃ v : Q, read_decimal (repr q) = Some v
             ∧ (0 <= v)%Q ∧ (v <= q)%Q ∧ (q < v + (1 # 1000000))%Q.

(** ** Reading an exposition document (spec, section 6)

    A document is a sequence of lines; every metric family takes three of
    them: [# HELP name description], [# TYPE name kind], [name value]. *)

Fixpoint lines (s : string) : list string :=
  match s with
  | EmptyString => []
  | String c s' =>
      if Ascii.eqb c LF then "" :: lines s'
      else match lines s' with
           | [] => [String c ""]
           | l :: ls => String c l :: ls
           end
  end.

Fixpoint strip_prefix (p s : string) : option string :=
  match p, s with
  | EmptyString, _ => Some s
  | String a p', String b s' =>
      if Ascii.eqb a b then strip_prefix p' s' else None
  | String _ _, EmptyString => None
  end.

(** Cut a line at its first space. *)
Fixpoint break_space (s : string) : option (string * string) :=
  match s with
  | EmptyString => None
  | String c s' =>
      if Ascii.eqb c " " then Some ("", s')
      else match break_space s' with
           | Some (w, r) => Some (String c w, r)
           | None => None
           end
  end.

Inductive kind : Type := counter | gauge.

Definition kind_of_string (s : string) : option kind :=
  if String.eqb s "counter" then Some counter
  else if String.eqb s "gauge" then Some gauge
  else None.

Record Family := mkFamily {
  family_name : string;
  family_help : string;
  family_type : kind;
  family_sample : string
}.

Definition parse_family (help type sample : string) : option Family :=
  h ← strip_prefix "# HELP " help ≫= break_space;
  t ← strip_prefix "# TYPE " type ≫= break_space;
  s ← break_space sample;
  k ← kind_of_string t.2;
  if String.eqb h.1 t.1 && String.eqb t.1 s.1
  then Some {| family_name := s.1; family_help := h.2;
               family_type := k; family_sample := s.2 |}
  else None.

Fixpoint parse_lines (ls : list string) : option (list Family) :=
  match ls with
  | [] => Some []
  | h :: t :: s :: rest =>
      f ← parse_family h t s;
      fs ← parse_lines rest;
      Some (f :: fs)
  | _ => None
  end.

Definition parse_exposition (text : string) : option (list Family) :=
  parse_lines (lines text).

(** The three metric families declared by the service, with the given
    sample texts. *)
Definition declared_families (v1 v2 v3 : string) : list Family :=
  [ {| family_name := "request_count"; family_help := "Total request count";
       family_type := counter; family_sample := v1 |};
    {| family_name := "post_request_count";
       family_help := "Total POST request count";
       family_type := counter; family_sample := v2 |};
    {| family_name := "random_gauge"; family_help := "A random gauge value";
       family_type := gauge; family_sample := v3 |} ].

(** A media type for plain text, for the examples. *)
Definition text_plain : string := "text/plain; version=0.0.4; charset=utf-8".

(** ** Exposition, the scrape handler and the application *)

Section Service.

(** How the host language prints a float. *)
Variable float_repr : Q -> string.

(** The media type constant exported by the metrics library. *)
Variable CONTENT_TYPE_LATEST : string.

Definition type_name (m : Metric) : string :=
  match m with
  | MCounter _ _ => "counter"
  | MGauge _ _ => "gauge"
  end.

Definition sample_value (m : Metric) : string :=
  match m with
  | MCounter _ v => string_of_Z v
  | MGauge _ q => float_repr q
  end.

(** The three lines of one metric. *)
Definition metric_lines (name : string) (m : Metric) : list string :=
  [ "# HELP " +:+ name +:+ " " +:+ documentation m;
    "# TYPE " +:+ name +:+ " " +:+ type_name m;
    name +:+ " " +:+ sample_value m ].

Definition registry_lines (reg : CollectorRegistry) : list string :=
  flat_map (fun name =>
              match collectors reg !! name with
              | Some m => metric_lines name m
              | None => []
              end) (names reg).

Fixpoint unlines (ls : list string) : string :=
  match ls with
  | [] => ""
  | l :: ls' => l +:+ String LF (unlines ls')
  end.

(** Modelled from the spec: [generate_latest()] of the metrics library,
    which is not part of the sources. This is [render()] of the spec
    (sections 4.1 and 6): one block of three lines per registered metric,
    in registration order, every line ended by a line feed; a counter is
    printed as an integer, a gauge as a float. *)
Definition generate_latest (reg : CollectorRegistry) : string :=
  unlines (registry_lines reg).

(** [GET /metrics]. *)
Definition metrics : handler Response :=
  reg <~ get_registry ;;;
  ret {| content := generate_latest reg; media_type := CONTENT_TYPE_LATEST |}.

(** What the framework does with the result of a route function: a
    returned dict is sent as JSON with status 200 when it can be written
    as JSON and answered with status 500 when it cannot, a returned
    [Response] is sent as it is, an [HTTPException] becomes a JSON error
    body with the exception's status code. *)
Definition error_response (e : HTTPException) : HTTPResponse :=
  {| status_code := exc_status_code e;
     body := JSONBody (JObject [("detail", JString (detail e))]) |}.

(** The reply of the framework when writing the response fails. *)
Definition internal_server_error : HTTPResponse :=
  {| status_code := 500;
     body := RawBody "Internal Server Error" "text/plain; charset=utf-8" |}.

Definition json_response (o : outcome json) : HTTPResponse :=
  match o with
  | Return j =>
      if serialisable j then {| status_code := 200; body := JSONBody j |}
      else internal_server_error
  | Raise e => error_response e
  end.

Definition raw_response (o : outcome Response) : HTTPResponse :=
  match o with
  | Return r => {| status_code := 200;
                   body := RawBody (content r) (media_type r) |}
  | Raise e => error_response e
  end.

Inductive Request : Type :=
| GET_root (now : Q)
| POST_submit (data : dict)
| GET_metrics.

(** The routing table of [app]. *)
Definition app (r : Request) (reg : CollectorRegistry)
  : HTTPResponse * CollectorRegistry :=
  match r with
  | GET_root now => let (o, reg') := root now reg in (json_response o, reg')
  | POST_submit data => let (o, reg') := submit data reg in (json_response o, reg')
  | GET_metrics => let (o, reg') := metrics reg in (raw_response o, reg')
  end.

Definition is_GET_root (r : Request) : bool :=
  match r with
  | GET_root _ => true
  | _ => false
  end.

Definition count_roots (reqs : list Request) : Z :=
  Z.of_nat (length (List.filter is_GET_root reqs)).

(** The registry after serving a sequence of requests one after the other. *)
Definition serve (reqs : list Request) (reg : CollectorRegistry)
  : CollectorRegistry :=
  foldl (fun reg r => (app r reg).2) reg reqs.

(** The event loop: the route functions are coroutines without a
    suspension point, so the loop runs one accepted request to completion
    before it picks the next; which pending request it picks is not
    determined. *)
Record Server := mkServer {
  registry : CollectorRegistry;
  pending : list Request
}.

Inductive loop_step : Server -> Server -> Prop :=
| loop_run (reg : CollectorRegistry) (before : list Request) (r : Request)
    (after : list Request) :
    loop_step {| registry := reg; pending := before ++ r :: after |}
              {| registry := (app r reg).2; pending := before ++ after |}.

(** What the loop preserves: the counter plus the number of [GET /]
    requests still pending. *)
Definition accounted (total : Z) (s : Server) : Prop :=
  ∃ rc pc g,
    registry s = registry_with rc pc g
    ∧ (rc + count_roots (pending s))%Z = total.

(** A [POST /submit] that gets past the emptiness test of line 25. *)
Definition is_accepted_submit (r : Request) : bool :=
  match r with
  | POST_submit (_ :: _) => true
  | _ => false
  end.

Definition count_submits (reqs : list Request) : Z :=
  Z.of_nat (length (List.filter is_accepted_submit reqs)).

(** The clock reading of the last [GET /] of a sequence, if there is one. *)
Fixpoint last_root_time (reqs : list Request) : option Q :=
  match reqs with
  | [] => None
  | r :: rest =>
      match last_root_time rest with
      | Some t => Some t
      | None => match r with
                | GET_root now => Some now
                | _ => None
                end
      end
  end.

(** The requests that reach a mutator: [GET /] and accepted submits. *)
Definition writes_metrics (r : Request) : bool :=
  is_GET_root r || is_accepted_submit r.

(** * Properties *)

(** ** The registry operations *)

Lemma declare_metrics_registry : declare_metrics = Some REGISTRY.
Proof. vm_compute. reflexivity. Qed.

Lemma names_inc name reg : names (inc name reg) = names reg.
Proof. reflexivity. Qed.

Lemma names_set name q reg : names (set name q reg) = names reg.
Proof. reflexivity. Qed.

Lemma lookup_inc_ne name name' reg :
  name ≠ name' -> collectors (inc name reg) !! name' = collectors reg !! name'.
Proof. intros Hne. unfold inc; simpl. by rewrite lookup_alter_ne. Qed.

Lemma lookup_set_ne name name' q reg :
  name ≠ name' -> collectors (set name q reg) !! name' = collectors reg !! name'.
Proof. intros Hne. unfold set; simpl. by rewrite lookup_alter_ne. Qed.

Lemma counter_value_inc_eq name reg v :
  counter_value name reg = Some v ->
  counter_value name (inc name reg) = Some (v + 1)%Z.
Proof.
  unfold counter_value, inc; simpl. rewrite lookup_alter_eq.
  destruct (collectors reg !! name) as [[d w|d w]|]; simpl; congruence.
Qed.

Lemma counter_value_inc_ne name name' reg :
  name ≠ name' -> counter_value name' (inc name reg) = counter_value name' reg.
Proof. intros Hne. unfold counter_value. by rewrite lookup_inc_ne. Qed.

(** [set] never touches the value of a counter, whatever name it is
    called on. *)
Lemma counter_value_set name name' q reg :
  counter_value name' (set name q reg) = counter_value name' reg.
Proof.
  unfold counter_value, set; simpl. rewrite lookup_alter.
  case_decide as Heq; [|done]. subst name'.
  by destruct (collectors reg !! name) as [[d w|d w]|].
Qed.

Lemma gauge_value_set_eq name q reg :
  is_Some (gauge_value name reg) -> gauge_value name (set name q reg) = Some q.
Proof.
  unfold gauge_value, set; simpl. rewrite lookup_alter_eq.
  destruct (collectors reg !! name) as [[d w|d w]|]; simpl;
    intros [x Hx]; congruence.
Qed.

Lemma gauge_value_inc_ne name name' reg :
  name ≠ name' -> gauge_value name' (inc name reg) = gauge_value name' reg.
Proof. intros Hne. unfold gauge_value. by rewrite lookup_inc_ne. Qed.

Lemma dom_inc name reg : dom (collectors (inc name reg)) = dom (collectors reg).
Proof. unfold inc; simpl. apply dom_alter_L. Qed.

Lemma dom_set name q reg :
  dom (collectors (set name q reg)) = dom (collectors reg).
Proof. unfold set; simpl. apply dom_alter_L. Qed.

(** ** Python's float remainder *)

Lemma py_mod_60_range (x : Q) : (0 <= py_mod x 60 /\ py_mod x 60 < 60)%Q.
Proof.
  unfold py_mod.
  pose proof (Qfloor_le (x / 60)) as Hlo.
  pose proof (Qlt_floor (x / 60)) as Hhi.
  rewrite inject_Z_plus in Hhi.
  assert (Hx : (x == 60 * (x / 60))%Q) by (field; discriminate).
  set (k := inject_Z (Qfloor (x / 60))) in *.
  set (y := (x / 60)%Q) in *.
  change (inject_Z 1) with 1%Q in Hhi.
  split; lra.
Qed.

Example py_mod_12345_67 : (py_mod (1234567 # 100) 60 == 4567 # 100)%Q.
Proof. reflexivity. Qed.

(** The remainder takes the sign of the divisor, as in Python. *)
Example py_mod_minus_half : (py_mod (-1 # 2) 60 == 119 # 2)%Q.
Proof. reflexivity. Qed.

(** ** The handlers, unfolded *)

Lemma root_unfold now reg :
  root now reg =
  (Return greeting, set RANDOM_GAUGE (py_mod now 60) (inc REQUEST_COUNT reg)).
Proof. reflexivity. Qed.

Lemma submit_empty reg :
  submit [] reg =
  (Raise {| exc_status_code := 400; detail := "No data provided" |}, reg).
Proof. reflexivity. Qed.


Lemma metrics_unfold reg :
  metrics reg =
  (Return {| content := generate_latest reg;
             media_type := CONTENT_TYPE_LATEST |}, reg).
Proof. reflexivity. Qed.


(** ** The application, route by route *)

Lemma app_root now reg :
  app (GET_root now) reg =
  ({| status_code := 200; body := JSONBody greeting |},
   set RANDOM_GAUGE (py_mod now 60) (inc REQUEST_COUNT reg)).
Proof. reflexivity. Qed.

Lemma app_submit_empty reg :
  app (POST_submit []) reg =
  ({| status_code := 400;
      body := JSONBody (JObject [("detail", JString "No data provided")]) |},
   reg).
Proof. reflexivity. Qed.



Lemma app_metrics reg :
  app GET_metrics reg =
  ({| status_code := 200;
      body := RawBody (generate_latest reg) CONTENT_TYPE_LATEST |}, reg).
Proof. reflexivity. Qed.

(** The registry a request leaves behind. *)
Lemma app_registry r reg :
  (app r reg).2 =
  match r with
  | GET_root now => set RANDOM_GAUGE (py_mod now 60) (inc REQUEST_COUNT reg)
  | POST_submit [] => reg
  | POST_submit (_ :: _) => inc POST_REQUEST_COUNT reg
  | GET_metrics => reg
  end.
Proof. destruct r as [now|[|kv data]|]; reflexivity. Qed.

Lemma serve_nil reg : serve [] reg = reg.
Proof. reflexivity. Qed.

Lemma serve_cons r reqs reg : serve (r :: reqs) reg = serve reqs (app r reg).2.
Proof. reflexivity. Qed.

Lemma serve_app reqs1 reqs2 reg :
  serve (reqs1 ++ reqs2) reg = serve reqs2 (serve reqs1 reg).
Proof. unfold serve. apply foldl_app. Qed.

Lemma serve_snoc reqs r reg :
  serve (reqs ++ [r]) reg = (app r (serve reqs reg)).2.
Proof. by rewrite serve_app. Qed.

(** One request moves a counter by 0 or by 1. *)
Lemma app_counter_step r reg name v :
  counter_value name reg = Some v ->
  counter_value name (app r reg).2 = Some v
  ∨ counter_value name (app r reg).2 = Some (v + 1)%Z.
Proof.
  intros Hv. rewrite app_registry.
  destruct r as [now|[|kv data]|]; auto.
  - rewrite counter_value_set.
    destruct (decide (REQUEST_COUNT = name)) as [<-|Hne].
    + right. by apply counter_value_inc_eq.
    + left. by rewrite counter_value_inc_ne.
  - destruct (decide (POST_REQUEST_COUNT = name)) as [<-|Hne].
    + right. by apply counter_value_inc_eq.
    + left. by rewrite counter_value_inc_ne.
Qed.

Lemma serve_counter_mono reqs reg name v :
  counter_value name reg = Some v ->
  ∃ v', counter_value name (serve reqs reg) = Some v' ∧ (v <= v')%Z.
Proof.
  revert reg v. induction reqs as [|r reqs IH]; intros reg v Hv.
  - exists v. split; [done|lia].
  - rewrite serve_cons.
    destruct (app_counter_step r reg name v Hv) as [Hs|Hs];
      destruct (IH _ _ Hs) as (v' & Hv' & Hle); exists v'; split; auto; lia.
Qed.

(** A request other than [GET /] leaves the gauge alone. *)
Lemma app_gauge_other r reg :
  is_GET_root r = false ->
  gauge_value RANDOM_GAUGE (app r reg).2 = gauge_value RANDOM_GAUGE reg.
Proof.
  intros Hr. rewrite app_registry.
  destruct r as [now|[|kv data]|]; try done.
  by apply gauge_value_inc_ne.
Qed.

Lemma serve_gauge_other reqs reg :
  forallb (fun r => negb (is_GET_root r)) reqs = true ->
  gauge_value RANDOM_GAUGE (serve reqs reg) = gauge_value RANDOM_GAUGE reg.
Proof.
  revert reg. induction reqs as [|r reqs IH]; intros reg Hall; [done|].
  simpl in Hall. apply andb_true_iff in Hall as [Hr Hall].
  rewrite serve_cons, IH by done.
  apply app_gauge_other. by destruct (is_GET_root r).
Qed.


Example serialisable_plain_payload :
  serialisable (JObject [("user", JString "k6"); ("ids", JArray [JInt 1; JInt 2]);
                         ("score", JFloat (Finite (3 # 2)))]) = true.
Proof. reflexivity. Qed.

Example serialisable_nested_nan :
  serialisable (JObject [("a", JArray [JObject [("b", JFloat NaN)]])]) = false.
Proof. reflexivity. Qed.

(** U+D800, a lone surrogate, in its three-byte form. *)
Example serialisable_lone_surrogate :
  serialisable
    (JObject [("a", JString (String "237" (String "160" (String "128" ""))))])
  = false.
Proof. reflexivity. Qed.

(** U+D7FF, the last code point before the surrogates, is fine. *)
Example serialisable_before_surrogates :
  serialisable
    (JObject [("a", JString (String "237" (String "159" (String "191" ""))))])
  = true.
Proof. reflexivity. Qed.

(** ** The echo route *)


(** C2: posting the empty object [{}] to [/submit] fails with HTTP status
    400 (detail "No data provided") and leaves the whole registry as it
    was: no metric value changes, in particular [post_request_count] keeps
    its value. *)
Theorem submit_empty_rejected (reg : CollectorRegistry) :
  submit [] reg =
    (Raise {| exc_status_code := 400; detail := "No data provided" |}, reg)
  ∧ status_code (app (POST_submit []) reg).1 = 400%Z
  ∧ (app (POST_submit []) reg).2 = reg
  ∧ counter_value POST_REQUEST_COUNT (app (POST_submit []) reg).2 =
      counter_value POST_REQUEST_COUNT reg.
Proof. repeat split. Qed.

(** ** The greeting route *)

(** C3: every call to [GET /], in whatever state the registry is (so
    regardless of the calls that preceded it), answers with the body
    [{"message": "Hello World"}], and the value of [request_count] after
    the call is its value before the call plus 1. *)
Theorem root_greets_and_counts (now : Q) (reg : CollectorRegistry) (v : Z) :
  counter_value REQUEST_COUNT reg = Some v ->
  ∃ reg',
    root now reg = (Return greeting, reg')
    ∧ greeting = JObject [("message", JString "Hello World")]
    ∧ app (GET_root now) reg =
        ({| status_code := 200; body := JSONBody greeting |}, reg')
    ∧ counter_value REQUEST_COUNT reg' = Some (v + 1)%Z.
Proof.
  intros Hv.
  exists (set RANDOM_GAUGE (py_mod now 60) (inc REQUEST_COUNT reg)).
  repeat split. rewrite counter_value_set. by apply counter_value_inc_eq.
Qed.

(** ** Counters over the life of the process *)

(** C5: both counters are 0 in the registry built at start-up, and along
    every sequence of requests (any routes, any arguments, any order) a
    single request leaves a counter unchanged or adds exactly 1, so a
    counter never decreases. *)
Theorem counters_start_at_zero_and_never_decrease :
  declare_metrics = Some REGISTRY
  ∧ Forall (fun name =>
      counter_value name REGISTRY = Some 0%Z
      ∧ ∀ (earlier : list Request) (r : Request) (later : list Request),
          ∃ v v1 v2 : Z,
            counter_value name (serve earlier REGISTRY) = Some v
            ∧ counter_value name (serve (earlier ++ [r]) REGISTRY) = Some v1
            ∧ (v1 = v ∨ v1 = v + 1)%Z
            ∧ counter_value name (serve (earlier ++ later) REGISTRY) = Some v2
            ∧ (0 <= v)%Z ∧ (v <= v2)%Z)
    [REQUEST_COUNT; POST_REQUEST_COUNT].
Proof.
  split; [apply declare_metrics_registry|].
  assert (Hstep : ∀ name, counter_value name REGISTRY = Some 0%Z ->
    ∀ (earlier : list Request) (r : Request) (later : list Request),
      ∃ v v1 v2 : Z,
        counter_value name (serve earlier REGISTRY) = Some v
        ∧ counter_value name (serve (earlier ++ [r]) REGISTRY) = Some v1
        ∧ (v1 = v ∨ v1 = v + 1)%Z
        ∧ counter_value name (serve (earlier ++ later) REGISTRY) = Some v2
        ∧ (0 <= v)%Z ∧ (v <= v2)%Z).
  { intros name H0 earlier r later.
    destruct (serve_counter_mono earlier REGISTRY name 0 H0) as (v & Hv & H0v).
    destruct (serve_counter_mono later _ name v Hv) as (v2 & Hv2 & Hvv2).
    rewrite <- serve_app in Hv2.
    exists v.
    destruct (app_counter_step r _ name v Hv) as [Hs|Hs];
      rewrite <- serve_snoc in Hs;
      [exists v|exists (v + 1)%Z]; exists v2; repeat split; auto. }
  repeat constructor; try (apply Hstep; vm_compute; reflexivity);
    vm_compute; reflexivity.
Qed.

(** ** Frame conditions *)

(** C10: [GET /] leaves [post_request_count] unchanged, and more generally
    every metric other than [request_count] and [random_gauge];
    [POST /submit], whether it succeeds or fails, leaves [request_count]
    and [random_gauge] unchanged, and more generally every metric other
    than [post_request_count]; [GET /metrics] changes nothing; no route
    changes the list of registered names. *)
Theorem handlers_touch_only_their_metrics (reg : CollectorRegistry) :
  (∀ now,
     collectors (app (GET_root now) reg).2 !! POST_REQUEST_COUNT
     = collectors reg !! POST_REQUEST_COUNT)
  ∧ (∀ data,
       collectors (app (POST_submit data) reg).2 !! REQUEST_COUNT
       = collectors reg !! REQUEST_COUNT
       ∧ collectors (app (POST_submit data) reg).2 !! RANDOM_GAUGE
         = collectors reg !! RANDOM_GAUGE)
  ∧ (∀ now name, name ≠ REQUEST_COUNT -> name ≠ RANDOM_GAUGE ->
       collectors (app (GET_root now) reg).2 !! name = collectors reg !! name)
  ∧ (∀ data name, name ≠ POST_REQUEST_COUNT ->
       collectors (app (POST_submit data) reg).2 !! name
       = collectors reg !! name)
  ∧ (app GET_metrics reg).2 = reg
  ∧ (∀ r, names (app r reg).2 = names reg).
Proof.
  assert (Hroot : ∀ now name, name ≠ REQUEST_COUNT -> name ≠ RANDOM_GAUGE ->
    collectors (app (GET_root now) reg).2 !! name = collectors reg !! name).
  { intros now name H1 H2. rewrite app_registry.
    rewrite lookup_set_ne, lookup_inc_ne; done. }
  assert (Hsubmit : ∀ data name, name ≠ POST_REQUEST_COUNT ->
    collectors (app (POST_submit data) reg).2 !! name = collectors reg !! name).
  { intros data name H1. rewrite app_registry.
    destruct data; [done|]. by rewrite lookup_inc_ne. }
  split; [intros now; by apply Hroot|].
  split; [intros data; split; by apply Hsubmit|].
  split; [done|]. split; [done|]. split; [done|].
  intros r. rewrite app_registry. by destruct r as [now|[|kv data]|].
Qed.


(** ** Lines of text *)

Lemma one_line_app (a b : string) :
  one_line (a +:+ b) = one_line a && one_line b.
Proof.
  induction a as [|c a IH]; simpl; [done|].
  rewrite IH. by rewrite andb_assoc.
Qed.

Lemma one_line_string_of_uint (d : Decimal.uint) :
  one_line (NilEmpty.string_of_uint d) = true.
Proof. induction d; simpl; auto. Qed.

Lemma one_line_string_of_Z (n : Z) : one_line (string_of_Z n) = true.
Proof.
  unfold string_of_Z, NilZero.string_of_int, NilZero.string_of_uint.
  destruct (Z.to_int n) as [d|d]; destruct d; simpl;
    auto using one_line_string_of_uint.
Qed.

Lemma one_line_frac_digits (n : nat) (r : Q) : one_line (frac_digits n r) = true.
Proof.
  revert r. induction n as [|n IH]; intros r; simpl; [done|].
  by rewrite one_line_app, one_line_string_of_Z, IH.
Qed.

Lemma one_line_decimal_repr (q : Q) : one_line (decimal_repr q) = true.
Proof.
  unfold decimal_repr.
  rewrite !one_line_app, one_line_string_of_Z, one_line_frac_digits.
  by destruct (Qlt_le_dec q 0).
Qed.

Lemma lines_line_feed (l rest : string) :
  one_line l = true -> lines (l +:+ String LF rest) = l :: lines rest.
Proof.
  induction l as [|c l IH]; simpl; intros Hl; [done|].
  apply andb_true_iff in Hl as [Hc Hl].
  apply negb_true_iff in Hc. rewrite Hc, IH by done. done.
Qed.

(** Splitting a document into lines undoes [unlines]. *)
Lemma lines_unlines (ls : list string) :
  Forall (fun l => one_line l = true) ls -> lines (unlines ls) = ls.
Proof.
  induction 1 as [|l ls Hl Hls IH]; simpl; [done|].
  by rewrite lines_line_feed, IH.
Qed.

Lemma Z_of_string_of_Z (n : Z) : Z_of_string (string_of_Z n) = Some n.
Proof.
  unfold Z_of_string, string_of_Z.
  rewrite NilZero.isi.
  - simpl. by rewrite DecimalZ.of_to.
  - destruct n; simpl; try done.
    intros [= H]. by apply (Unsigned.to_uint_nonnil p).
  - destruct n; simpl; try done.
    intros [= H]. by apply (Unsigned.to_uint_nonnil p).
Qed.


(** ** The registries the process can be in *)

Lemma inc_REQUEST_COUNT_with rc pc g :
  inc REQUEST_COUNT (registry_with rc pc g) = registry_with (rc + 1) pc g.
Proof. reflexivity. Qed.

Lemma inc_POST_REQUEST_COUNT_with rc pc g :
  inc POST_REQUEST_COUNT (registry_with rc pc g) = registry_with rc (pc + 1) g.
Proof. reflexivity. Qed.

Lemma set_RANDOM_GAUGE_with q rc pc g :
  set RANDOM_GAUGE q (registry_with rc pc g) = registry_with rc pc q.
Proof. reflexivity. Qed.

Lemma app_registry_with r rc pc g :
  ∃ rc' pc' g',
    (app r (registry_with rc pc g)).2 = registry_with rc' pc' g'
    ∧ (rc <= rc')%Z ∧ (pc <= pc')%Z.
Proof.
  rewrite app_registry. destruct r as [now|[|kv data]|].
  - exists (rc + 1)%Z, pc, (py_mod now 60).
    rewrite inc_REQUEST_COUNT_with, set_RANDOM_GAUGE_with. split; [done|lia].
  - exists rc, pc, g. split; [done|lia].
  - exists rc, (pc + 1)%Z, g.
    rewrite inc_POST_REQUEST_COUNT_with. split; [done|lia].
  - exists rc, pc, g. split; [done|lia].
Qed.

Lemma serve_registry_with reqs rc pc g :
  ∃ rc' pc' g',
    serve reqs (registry_with rc pc g) = registry_with rc' pc' g'
    ∧ (rc <= rc')%Z ∧ (pc <= pc')%Z.
Proof.
  revert rc pc g. induction reqs as [|r reqs IH]; intros rc pc g.
  - exists rc, pc, g. split; [done|lia].
  - rewrite serve_cons.
    destruct (app_registry_with r rc pc g) as (rc1 & pc1 & g1 & -> & ? & ?).
    destruct (IH rc1 pc1 g1) as (rc2 & pc2 & g2 & -> & ? & ?).
    exists rc2, pc2, g2. split; [done|lia].
Qed.

Lemma counter_value_REQUEST_COUNT_with rc pc g :
  counter_value REQUEST_COUNT (registry_with rc pc g) = Some rc.
Proof. reflexivity. Qed.

Lemma counter_value_POST_REQUEST_COUNT_with rc pc g :
  counter_value POST_REQUEST_COUNT (registry_with rc pc g) = Some pc.
Proof. reflexivity. Qed.

Lemma gauge_value_RANDOM_GAUGE_with rc pc g :
  gauge_value RANDOM_GAUGE (registry_with rc pc g) = Some g.
Proof. reflexivity. Qed.

(** ** The exposition of a reachable registry *)

Lemma registry_lines_with rc pc g :
  registry_lines (registry_with rc pc g) =
  [ "# HELP request_count Total request count";
    "# TYPE request_count counter";
    "request_count " +:+ string_of_Z rc;
    "# HELP post_request_count Total POST request count";
    "# TYPE post_request_count counter";
    "post_request_count " +:+ string_of_Z pc;
    "# HELP random_gauge A random gauge value";
    "# TYPE random_gauge gauge";
    "random_gauge " +:+ float_repr g ].
Proof. reflexivity. Qed.

(** Reading back three blocks whose sample values are arbitrary texts. *)
Lemma parse_lines_three (v1 v2 v3 : string) :
  parse_lines
    [ "# HELP request_count Total request count";
      "# TYPE request_count counter";
      "request_count " +:+ v1;
      "# HELP post_request_count Total POST request count";
      "# TYPE post_request_count counter";
      "post_request_count " +:+ v2;
      "# HELP random_gauge A random gauge value";
      "# TYPE random_gauge gauge";
      "random_gauge " +:+ v3 ] =
  Some (declared_families v1 v2 v3).
Proof. reflexivity. Qed.

Example lines_of_two : lines ("a b" +:+ String LF ("c" +:+ String LF "")) = ["a b"; "c"].
Proof. reflexivity. Qed.

Example generate_latest_after_some_requests :
  generate_latest (registry_with 3 4 (25 # 2)) =
  unlines
    [ "# HELP request_count Total request count";
      "# TYPE request_count counter";
      "request_count 3";
      "# HELP post_request_count Total POST request count";
      "# TYPE post_request_count counter";
      "post_request_count 4";
      "# HELP random_gauge A random gauge value";
      "# TYPE random_gauge gauge";
      "random_gauge " +:+ float_repr (25 # 2) ].
Proof. reflexivity. Qed.

Example decimal_repr_12_5 : decimal_repr (25 # 2) = "12.500000".
Proof. reflexivity. Qed.

(** From here on the float formatter is assumed to print on one line. *)
Hypothesis float_repr_one_line : ∀ q, one_line (float_repr q) = true.

Lemma registry_lines_with_one_line rc pc g :
  Forall (fun l => one_line l = true) (registry_lines (registry_with rc pc g)).
Proof.
  rewrite registry_lines_with.
  repeat constructor;
    rewrite ?one_line_app, ?one_line_string_of_Z, ?float_repr_one_line; done.
Qed.

Lemma lines_generate_latest_with rc pc g :
  lines (generate_latest (registry_with rc pc g)) =
  registry_lines (registry_with rc pc g).
Proof. apply lines_unlines, registry_lines_with_one_line. Qed.

Lemma parse_exposition_with rc pc g :
  parse_exposition (generate_latest (registry_with rc pc g)) =
  Some (declared_families (string_of_Z rc) (string_of_Z pc) (float_repr g)).
Proof.
  unfold parse_exposition.
  rewrite lines_generate_latest_with, registry_lines_with.
  apply parse_lines_three.
Qed.



(** ** Requests in flight at the same time *)

Lemma count_roots_app reqs1 reqs2 :
  count_roots (reqs1 ++ reqs2) = (count_roots reqs1 + count_roots reqs2)%Z.
Proof. unfold count_roots. rewrite List.filter_app, length_app. lia. Qed.

Lemma count_roots_cons r reqs :
  count_roots (r :: reqs) =
  ((if is_GET_root r then 1 else 0) + count_roots reqs)%Z.
Proof.
  unfold count_roots. simpl. destruct (is_GET_root r); simpl length; lia.
Qed.

Lemma count_roots_map_GET_root times :
  count_roots (map GET_root times) = Z.of_nat (length times).
Proof.
  induction times as [|t times IH]; [done|].
  simpl map. rewrite count_roots_cons, IH. simpl. lia.
Qed.

Lemma app_request_count_with r rc pc g :
  ∃ pc' g',
    (app r (registry_with rc pc g)).2 =
    registry_with (rc + (if is_GET_root r then 1 else 0)) pc' g'.
Proof.
  rewrite app_registry. destruct r as [now|[|kv data]|]; simpl.
  - exists pc, (py_mod now 60).
    by rewrite inc_REQUEST_COUNT_with, set_RANDOM_GAUGE_with.
  - exists pc, g. by rewrite Z.add_0_r.
  - exists (pc + 1)%Z, g.
    by rewrite inc_POST_REQUEST_COUNT_with, Z.add_0_r.
  - exists pc, g. by rewrite Z.add_0_r.
Qed.

Lemma loop_step_accounted total s s' :
  loop_step s s' -> accounted total s -> accounted total s'.
Proof.
  intros Hstep (rc & pc & g & Hreg & Htotal).
  destruct Hstep as [reg before r after]. simpl in *. subst reg.
  destruct (app_request_count_with r rc pc g) as (pc' & g' & Happ).
  exists (rc + (if is_GET_root r then 1 else 0))%Z, pc', g'.
  split; [done|].
  rewrite count_roots_app, count_roots_cons in Htotal.
  simpl pending. rewrite count_roots_app. lia.
Qed.

Lemma loop_accounted total s s' :
  rtc loop_step s s' -> accounted total s -> accounted total s'.
Proof. induction 1; eauto using loop_step_accounted. Qed.

(** The loop can always drain its pending requests. *)
Lemma loop_drains reqs reg :
  rtc loop_step {| registry := reg; pending := reqs |}
                {| registry := serve reqs reg; pending := [] |}.
Proof.
  revert reg. induction reqs as [|r reqs IH]; intros reg; [done|].
  eapply rtc_l; [|apply IH].
  apply (loop_run reg [] r reqs).
Qed.

(** C9: [N] requests to [GET /] issued at the same time, with
    [request_count] at 0: the event loop can complete them all, and in
    whatever order it picks them, once none is pending [request_count]
    is exactly [N]. *)
Theorem concurrent_roots_all_counted (times : list Q) :
  counter_value REQUEST_COUNT REGISTRY = Some 0%Z
  ∧ (∃ final,
       rtc loop_step {| registry := REGISTRY; pending := map GET_root times |}
           final
       ∧ pending final = [])
  ∧ (∀ final,
       rtc loop_step {| registry := REGISTRY; pending := map GET_root times |}
           final ->
       pending final = [] ->
       counter_value REQUEST_COUNT (registry final)
       = Some (Z.of_nat (length times))).
Proof.
  split; [reflexivity|]. split.
  - eexists. split; [apply loop_drains|done].
  - intros final Hrun Hdone.
    assert (Hacc : accounted (Z.of_nat (length times)) final).
    { eapply loop_accounted; [exact Hrun|].
      exists 0%Z, 0%Z, 0%Q. split; [done|].
      simpl. by rewrite count_roots_map_GET_root. }
    destruct Hacc as (rc & pc & g & Hreg & Htotal).
    rewrite Hdone in Htotal. rewrite Hreg.
    rewrite counter_value_REQUEST_COUNT_with. f_equal.
    change (count_roots []) with 0%Z in Htotal. lia.
Qed.


(** * Further properties of the handlers *)

(** ** Closed forms for the counters *)

Lemma counter_value_inc name reg :
  counter_value name (inc name reg) =
  (fun v => (v + 1)%Z) <$> counter_value name reg.
Proof.
  unfold counter_value, inc; simpl. rewrite lookup_alter_eq.
  by destruct (collectors reg !! name) as [[d w|d w]|].
Qed.

Lemma fmap_add_0 (o : option Z) : (fun v => (v + 0)%Z) <$> o = o.
Proof. destruct o; simpl; [f_equal; lia|done]. Qed.

Lemma app_request_count r reg :
  counter_value REQUEST_COUNT (app r reg).2 =
  (fun v => (v + (if is_GET_root r then 1 else 0))%Z)
    <$> counter_value REQUEST_COUNT reg.
Proof.
  rewrite app_registry. destruct r as [now|[|kv data]|]; simpl is_GET_root;
    cbv iota; rewrite ?fmap_add_0; try done.
  - by rewrite counter_value_set, counter_value_inc.
  - by rewrite counter_value_inc_ne.
Qed.

Lemma app_post_request_count r reg :
  counter_value POST_REQUEST_COUNT (app r reg).2 =
  (fun v => (v + (if is_accepted_submit r then 1 else 0))%Z)
    <$> counter_value POST_REQUEST_COUNT reg.
Proof.
  rewrite app_registry.
  destruct r as [now|[|kv data]|]; simpl is_accepted_submit;
    cbv iota; rewrite ?fmap_add_0; try done.
  - by rewrite counter_value_set, counter_value_inc_ne.
  - by rewrite counter_value_inc.
Qed.

Lemma count_submits_cons r reqs :
  count_submits (r :: reqs) =
  ((if is_accepted_submit r then 1 else 0) + count_submits reqs)%Z.
Proof.
  unfold count_submits. simpl.
  destruct (is_accepted_submit r); simpl length; lia.
Qed.

Lemma serve_request_count reqs reg :
  counter_value REQUEST_COUNT (serve reqs reg) =
  (fun v => (v + count_roots reqs)%Z) <$> counter_value REQUEST_COUNT reg.
Proof.
  revert reg. induction reqs as [|r reqs IH]; intros reg.
  - rewrite serve_nil. change (count_roots []) with 0%Z.
    by rewrite fmap_add_0.
  - rewrite serve_cons, IH, app_request_count, count_roots_cons.
    destruct (counter_value REQUEST_COUNT reg); simpl; [f_equal; lia|done].
Qed.

Lemma serve_post_request_count reqs reg :
  counter_value POST_REQUEST_COUNT (serve reqs reg) =
  (fun v => (v + count_submits reqs)%Z)
    <$> counter_value POST_REQUEST_COUNT reg.
Proof.
  revert reg. induction reqs as [|r reqs IH]; intros reg.
  - rewrite serve_nil. change (count_submits []) with 0%Z.
    by rewrite fmap_add_0.
  - rewrite serve_cons, IH, app_post_request_count, count_submits_cons.
    destruct (counter_value POST_REQUEST_COUNT reg); simpl;
      [f_equal; lia|done].
Qed.

(** X1: after any sequence of requests, [request_count] has grown by the
    number of [GET /] requests in the sequence: submits, accepted or
    rejected, and scrapes are not counted by it. *)
Theorem request_count_counts_the_roots
    (reqs : list Request) (reg : CollectorRegistry) (v : Z) :
  counter_value REQUEST_COUNT reg = Some v ->
  counter_value REQUEST_COUNT (serve reqs reg)
  = Some (v + Z.of_nat (length (List.filter is_GET_root reqs)))%Z.
Proof. intros Hv. by rewrite serve_request_count, Hv. Qed.

(** X2: after any sequence of requests, [post_request_count] has grown by
    the number of [POST /submit] requests with a non-empty payload:
    rejected submits, greetings and scrapes are not counted by it. *)
Theorem post_request_count_counts_accepted_submits
    (reqs : list Request) (reg : CollectorRegistry) (v : Z) :
  counter_value POST_REQUEST_COUNT reg = Some v ->
  counter_value POST_REQUEST_COUNT (serve reqs reg)
  = Some (v + Z.of_nat (length (List.filter is_accepted_submit reqs)))%Z.
Proof. intros Hv. by rewrite serve_post_request_count, Hv. Qed.

(** ** The gauge keeps the last write *)

Lemma app_root_gauge now reg g :
  gauge_value RANDOM_GAUGE reg = Some g ->
  gauge_value RANDOM_GAUGE (app (GET_root now) reg).2 = Some (py_mod now 60).
Proof.
  intros Hg. rewrite app_registry. apply gauge_value_set_eq.
  rewrite gauge_value_inc_ne by done. by exists g.
Qed.

(** X3: after any sequence of requests the gauge holds the clock reading
    of the last [GET /] of the sequence, modulo 60, whatever was served
    after it; without any [GET /] it holds what it held before. *)
Theorem gauge_holds_the_last_root_time
    (reqs : list Request) (reg : CollectorRegistry) (g : Q) :
  gauge_value RANDOM_GAUGE reg = Some g ->
  gauge_value RANDOM_GAUGE (serve reqs reg)
  = Some (match last_root_time reqs with
          | Some t => py_mod t 60
          | None => g
          end).
Proof.
  revert reg g. induction reqs as [|r reqs IH]; intros reg g Hg; [done|].
  rewrite serve_cons. simpl last_root_time.
  destruct (is_GET_root r) eqn:Hr.
  - destruct r as [now| |]; try done.
    rewrite (IH _ (py_mod now 60)) by (by eapply app_root_gauge).
    by destruct (last_root_time reqs).
  - rewrite (IH _ g) by (by rewrite app_gauge_other).
    destruct (last_root_time reqs); [done|]. by destruct r.
Qed.

(** ** Requests that leave no trace *)

(** X4: scrapes and rejected submits can be erased from any sequence of
    requests: serving only the requests that reach a mutator leaves the
    same registry. *)
Theorem requests_without_writes_can_be_erased
    (reqs : list Request) (reg : CollectorRegistry) :
  serve reqs reg = serve (List.filter writes_metrics reqs) reg.
Proof.
  revert reg. induction reqs as [|r reqs IH]; intros reg; [done|].
  simpl List.filter. destruct (writes_metrics r) eqn:Hr.
  - by rewrite !serve_cons, IH.
  - rewrite serve_cons, IH. f_equal.
    rewrite app_registry. by destruct r as [now|[|kv data]|].
Qed.

(** ** The order of the requests *)

Lemma count_roots_Permutation reqs reqs' :
  reqs ≡ₚ reqs' -> count_roots reqs = count_roots reqs'.
Proof.
  induction 1 as [|r l l' _ IH|r1 r2 l|l1 l2 l3 _ IH1 _ IH2];
    rewrite ?count_roots_cons; lia.
Qed.

Lemma count_submits_Permutation reqs reqs' :
  reqs ≡ₚ reqs' -> count_submits reqs = count_submits reqs'.
Proof.
  induction 1 as [|r l l' _ IH|r1 r2 l|l1 l2 l3 _ IH1 _ IH2];
    rewrite ?count_submits_cons; lia.
Qed.

Lemma names_serve reqs reg : names (serve reqs reg) = names reg.
Proof.
  revert reg. induction reqs as [|r reqs IH]; intros reg; [done|].
  rewrite serve_cons, IH, app_registry. by destruct r as [now|[|kv data]|].
Qed.

(** X5: the counters do not depend on the order in which the requests are
    served: two sequences with the same requests, in any order, leave
    the same values in [request_count] and in [post_request_count]. *)
Theorem counters_ignore_the_order
    (reqs reqs' : list Request) (reg : CollectorRegistry) :
  reqs ≡ₚ reqs' ->
  counter_value REQUEST_COUNT (serve reqs reg)
  = counter_value REQUEST_COUNT (serve reqs' reg)
  ∧ counter_value POST_REQUEST_COUNT (serve reqs reg)
    = counter_value POST_REQUEST_COUNT (serve reqs' reg).
Proof.
  intros Hperm.
  rewrite !serve_request_count, !serve_post_request_count.
  by rewrite (count_roots_Permutation _ _ Hperm),
             (count_submits_Permutation _ _ Hperm).
Qed.

(** ** Seconds of the minute *)

Lemma Qfloor_unique (x : Q) (k : Z) :
  (inject_Z k <= x)%Q -> (x < inject_Z (k + 1))%Q -> Qfloor x = k.
Proof.
  intros Hlo Hhi.
  pose proof (Qfloor_le x) as Hfl. pose proof (Qlt_floor x) as Hfu.
  assert (k < Qfloor x + 1)%Z
    by (rewrite Zlt_Qlt; eapply Qle_lt_trans; eauto).
  assert (Qfloor x < k + 1)%Z
    by (rewrite Zlt_Qlt; eapply Qle_lt_trans; eauto).
  lia.
Qed.

Lemma py_mod_60_unique (x r : Q) (k : Z) :
  (x == 60 * inject_Z k + r)%Q -> (0 <= r)%Q -> (r < 60)%Q ->
  (py_mod x 60 == r)%Q.
Proof.
  intros Hx Hlo Hhi. unfold py_mod.
  assert (Hy : (x == 60 * (x / 60))%Q) by (field; discriminate).
  assert (Hk : Qfloor (x / 60) = k).
  { apply Qfloor_unique; [|rewrite inject_Z_plus; change (inject_Z 1) with 1%Q];
      set (y := (x / 60)%Q) in *; set (z := inject_Z k) in *; lra. }
  rewrite Hk. lra.
Qed.

Lemma py_mod_60_shift (x : Q) (k : Z) :
  (py_mod (x + 60 * inject_Z k) 60 == py_mod x 60)%Q.
Proof.
  destruct (py_mod_60_range x) as [Hlo Hhi].
  apply (py_mod_60_unique _ _ (Qfloor (x / 60) + k)); [|done|done].
  unfold py_mod. rewrite inject_Z_plus. lra.
Qed.

(** X6: the value [GET /] stores is the seconds-of-the-minute part of the
    clock: when the clock reads a whole number [k] of minutes plus [r]
    seconds with [0 <= r < 60], the gauge holds [r]. *)
Theorem gauge_is_the_seconds_of_the_minute
    (now r : Q) (k : Z) (reg : CollectorRegistry) :
  is_Some (gauge_value RANDOM_GAUGE reg) ->
  (now == 60 * inject_Z k + r)%Q -> (0 <= r)%Q -> (r < 60)%Q ->
  ∃ g, gauge_value RANDOM_GAUGE (app (GET_root now) reg).2 = Some g
       ∧ (g == r)%Q.
Proof.
  intros [g0 Hg] Hnow Hlo Hhi. exists (py_mod now 60).
  split; [by eapply app_root_gauge|by eapply py_mod_60_unique].
Qed.

(** X7: two [GET /] calls whose clock readings differ by a whole number
    of minutes store the same gauge value. *)
Theorem gauge_repeats_every_minute
    (now : Q) (k : Z) (reg : CollectorRegistry) :
  is_Some (gauge_value RANDOM_GAUGE reg) ->
  ∃ g g',
    gauge_value RANDOM_GAUGE (app (GET_root now) reg).2 = Some g
    ∧ gauge_value RANDOM_GAUGE
        (app (GET_root (now + 60 * inject_Z k)) reg).2 = Some g'
    ∧ (g' == g)%Q.
Proof.
  intros [g0 Hg].
  exists (py_mod now 60), (py_mod (now + 60 * inject_Z k) 60).
  split; [by eapply app_root_gauge|].
  split; [by eapply app_root_gauge|apply py_mod_60_shift].
Qed.

(** ** Every run of the loop is a sequential run *)

Lemma loop_run_is_sequential s final :
  rtc loop_step s final ->
  ∃ served,
    served ++ pending final ≡ₚ pending s
    ∧ registry final = serve served (registry s).
Proof.
  induction 1 as [s|s s1 final Hstep _ (served & Hperm & Hreg)].
  - by exists [].
  - destruct Hstep as [reg before r after]. simpl in *.
    exists (r :: served). split; [|by rewrite serve_cons].
    simpl. rewrite Hperm. by rewrite Permutation_middle.
Qed.


(** ** Decimal numbers read back *)

Lemma digit_string (d : Z) :
  (0 <= d <= 9)%Z ->
  ∃ c, string_of_Z d = String c "" ∧ digit_of_ascii c = Some d.
Proof.
  intros Hd.
  assert (Hcases : (d = 0 ∨ d = 1 ∨ d = 2 ∨ d = 3 ∨ d = 4 ∨ d = 5 ∨ d = 6
                    ∨ d = 7 ∨ d = 8 ∨ d = 9)%Z) by lia.
  repeat (destruct Hcases as [->|Hcases]; [eexists; split; reflexivity|]).
  subst d. eexists; split; reflexivity.
Qed.

Lemma Qfloor_digit (r : Q) :
  (0 <= r)%Q -> (r < 1)%Q -> (0 <= Qfloor (10 * r) <= 9)%Z.
Proof.
  intros Hlo Hhi.
  pose proof (Qfloor_le (10 * r)) as Hfl.
  pose proof (Qfloor_resp_le 0 (10 * r)) as H0.
  change (Qfloor 0) with 0%Z in H0.
  split; [apply H0; lra|].
  assert (Qfloor (10 * r) < 10)%Z; [|lia].
  rewrite Zlt_Qlt. change (inject_Z 10) with 10%Q. lra.
Qed.

Lemma Qfloor_next_digit (r : Q) :
  (0 <= r)%Q -> (r < 1)%Q ->
  (0 <= 10 * r - inject_Z (Qfloor (10 * r)))%Q
  ∧ (10 * r - inject_Z (Qfloor (10 * r)) < 1)%Q.
Proof.
  intros Hlo Hhi.
  pose proof (Qfloor_le (10 * r)) as Hfl.
  pose proof (Qlt_floor (10 * r)) as Hfu.
  rewrite inject_Z_plus in Hfu. change (inject_Z 1) with 1%Q in Hfu.
  split; lra.
Qed.

Lemma append_single (c : ascii) (s : string) : String c "" +:+ s = String c s.
Proof. reflexivity. Qed.

Lemma read_digits_digit (c : ascii) (d : Z) (s : string) (acc : Z) :
  digit_of_ascii c = Some d ->
  read_digits (String c s) acc = read_digits s (10 * acc + d).
Proof. intros Hd. cbn [read_digits]. by rewrite Hd. Qed.

(** The fractional digits, read from the left, are the floor of the
    fraction scaled by the matching power of ten. *)
Lemma read_frac_digits (n : nat) (r : Q) (acc : Z) :
  (0 <= r)%Q -> (r < 1)%Q ->
  read_digits (frac_digits n r) acc =
  Some (acc * 10 ^ Z.of_nat n
        + Qfloor (r * inject_Z (10 ^ Z.of_nat n)))%Z.
Proof.
  revert r acc. induction n as [|n IH]; intros r acc Hlo Hhi.
  - assert (Hr : Qfloor (r * inject_Z 1) = 0%Z).
    { apply Qfloor_unique; change (inject_Z 1) with 1%Q;
        change (inject_Z (0 + 1)) with 1%Q; change (inject_Z 0) with 0%Q; lra. }
    change (10 ^ Z.of_nat 0)%Z with 1%Z. rewrite Hr.
    change (frac_digits 0 r) with EmptyString.
    cbn [read_digits]. f_equal. lia.
  - change (frac_digits (S n) r)
      with (string_of_Z (Qfloor (10 * r))
            +:+ frac_digits n (10 * r - inject_Z (Qfloor (10 * r)))%Q).
    destruct (digit_string _ (Qfloor_digit r Hlo Hhi)) as (c & Hc & Hd).
    destruct (Qfloor_next_digit r Hlo Hhi) as [Hlo' Hhi'].
    rewrite Hc, append_single, (read_digits_digit c _ _ _ Hd).
    rewrite IH by done. f_equal.
    rewrite Nat2Z.inj_succ, Z.pow_succ_r by lia.
    set (d := Qfloor (10 * r)) in *.
    set (p := (10 ^ Z.of_nat n)%Z) in *.
    set (r' := (10 * r - inject_Z d)%Q) in *.
    assert (Hp : (0 < inject_Z p)%Q).
    { change 0%Q with (inject_Z 0). rewrite <- Zlt_Qlt.
      subst p. apply Z.pow_pos_nonneg; lia. }
    assert (Hfloor : Qfloor (r * inject_Z (10 * p)) = (d * p + Qfloor (r' * inject_Z p))%Z).
    { pose proof (Qfloor_le (r' * inject_Z p)) as Hfl.
      pose proof (Qlt_floor (r' * inject_Z p)) as Hfu.
      assert (E : (r * inject_Z (10 * p)
                   == inject_Z d * inject_Z p + r' * inject_Z p)%Q).
      { rewrite inject_Z_mult. subst r'. change (inject_Z 10) with 10%Q. ring. }
      apply Qfloor_unique;
        rewrite ?inject_Z_plus, ?inject_Z_mult in *;
        change (inject_Z 1) with 1%Q in *; rewrite E;
        set (x := (r' * inject_Z p)%Q) in *;
        set (y := (inject_Z d * inject_Z p)%Q) in *; lra. }
    rewrite Hfloor. lia.
Qed.

Lemma length_frac_digits (n : nat) (r : Q) :
  (0 <= r)%Q -> (r < 1)%Q -> String.length (frac_digits n r) = n.
Proof.
  revert r. induction n as [|n IH]; intros r Hlo Hhi; [done|].
  change (frac_digits (S n) r)
    with (string_of_Z (Qfloor (10 * r))
          +:+ frac_digits n (10 * r - inject_Z (Qfloor (10 * r)))%Q).
  destruct (digit_string _ (Qfloor_digit r Hlo Hhi)) as (c & Hc & _).
  destruct (Qfloor_next_digit r Hlo Hhi) as [Hlo' Hhi'].
  rewrite Hc, append_single. cbn [String.length]. by rewrite IH.
Qed.

Lemma occurs_string_of_uint (d : Decimal.uint) :
  occurs "." (NilEmpty.string_of_uint d) = false.
Proof. induction d; simpl; auto. Qed.

Lemma occurs_string_of_Z (n : Z) : occurs "." (string_of_Z n) = false.
Proof.
  unfold string_of_Z, NilZero.string_of_int, NilZero.string_of_uint.
  destruct (Z.to_int n) as [d|d]; destruct d; simpl;
    auto using occurs_string_of_uint.
Qed.

Lemma break_at_app (c : ascii) (a b : string) :
  occurs c a = false -> break_at c (a +:+ String c b) = Some (a, b).
Proof.
  induction a as [|x a IH]; simpl; intros Ha.
  - by rewrite Ascii.eqb_refl.
  - apply orb_false_iff in Ha as [Hx Ha]. by rewrite Hx, IH.
Qed.

Lemma starts_with_minus_string_of_Z (n : Z) :
  (0 <= n)%Z -> starts_with_minus (string_of_Z n) = false.
Proof.
  intros Hn. unfold string_of_Z.
  destruct n as [|p|p]; [done| |lia].
  simpl. unfold NilZero.string_of_uint.
  pose proof (Unsigned.to_uint_nonnil p) as Hp.
  by destruct (Pos.to_uint p).
Qed.

Example read_decimal_12_5 : read_decimal "12.500000" = Some (12 + 500000 / 1000000)%Q.
Proof. reflexivity. Qed.

Example read_decimal_minus : (read_decimal "-0.25" = Some (0 - 25 / 100))%Q.
Proof. reflexivity. Qed.

Example read_decimal_no_point : read_decimal "12" = None.
Proof. reflexivity. Qed.

Example read_decimal_exponent : read_decimal "1e-05" = None.
Proof. reflexivity. Qed.

(** The six-digit formatter prints decimals. *)
Lemma prints_decimals_decimal_repr : prints_decimals decimal_repr.
Proof.
  intros q Hq. unfold decimal_repr.
  destruct (Qlt_le_dec q 0) as [Hneg|_]; [lra|].
  pose proof (Qabs_pos q Hq) as Habs.
  set (a := Qabs q) in *.
  pose proof (Qfloor_le a) as Hfl. pose proof (Qlt_floor a) as Hfu.
  rewrite inject_Z_plus in Hfu. change (inject_Z 1) with 1%Q in Hfu.
  assert (Hn : (0 <= Qfloor a)%Z).
  { pose proof (Qfloor_resp_le 0 a) as H0.
    change (Qfloor 0) with 0%Z in H0. apply H0. lra. }
  set (n := Qfloor a) in *.
  set (r := (a - inject_Z n)%Q).
  assert (Hr0 : (0 <= r)%Q) by (subst r; lra).
  assert (Hr1 : (r < 1)%Q) by (subst r; lra).
  pose proof (Qfloor_le (r * inject_Z (10 ^ Z.of_nat 6))) as Hgl.
  pose proof (Qlt_floor (r * inject_Z (10 ^ Z.of_nat 6))) as Hgu.
  assert (Hf0 : (0 <= Qfloor (r * inject_Z (10 ^ Z.of_nat 6)))%Z).
  { pose proof (Qfloor_resp_le 0 (r * inject_Z (10 ^ Z.of_nat 6))) as H0.
    change (Qfloor 0) with 0%Z in H0. apply H0.
    change (inject_Z (10 ^ Z.of_nat 6)) with 1000000%Q. lra. }
  exists (inject_Z n
          + inject_Z (Qfloor (r * inject_Z (10 ^ Z.of_nat 6)))
            / inject_Z (10 ^ Z.of_nat 6))%Q.
  split.
  - unfold read_decimal.
    change ("" +:+ string_of_Z n +:+ "." +:+ frac_digits 6 r)
      with (string_of_Z n +:+ String "." (frac_digits 6 r)).
    rewrite break_at_app by apply occurs_string_of_Z.
    rewrite Z_of_string_of_Z, starts_with_minus_string_of_Z by done.
    pose proof (read_frac_digits 6 r 0 Hr0 Hr1) as Hread.
    pose proof (length_frac_digits 6 r Hr0 Hr1) as Hlen.
    rewrite Z.mul_0_l, Z.add_0_l in Hread.
    destruct (frac_digits 6 r) as [|c fd]; [discriminate Hlen|].
    by rewrite Hread, Hlen.
  - set (f := Qfloor (r * inject_Z (10 ^ Z.of_nat 6))) in *.
    rewrite inject_Z_plus in Hgu.
    change (inject_Z 1) with 1%Q in Hgu.
    change (inject_Z (10 ^ Z.of_nat 6)) with 1000000%Q in *.
    assert (Hf0' : (0 <= inject_Z f)%Q)
      by (change 0%Q with (inject_Z 0); by rewrite <- Zle_Qle).
    assert (Hn' : (0 <= inject_Z n)%Q)
      by (change 0%Q with (inject_Z 0); by rewrite <- Zle_Qle).
    assert (Hz : (inject_Z f == 1000000 * (inject_Z f / 1000000))%Q)
      by (field; discriminate).
    subst r. set (z := (inject_Z f / 1000000)%Q) in *.
    set (x := inject_Z f) in *. set (y := inject_Z n) in *.
    repeat split; lra.
Qed.


(** ** The gauge as the scrape reports it *)

Lemma serve_registry_with_gauge reqs rc pc g :
  (0 <= g)%Q ->
  ∃ rc' pc' g',
    serve reqs (registry_with rc pc g) = registry_with rc' pc' g'
    ∧ (rc <= rc')%Z ∧ (pc <= pc')%Z ∧ (0 <= g')%Q.
Proof.
  revert rc pc g. induction reqs as [|r reqs IH]; intros rc pc g Hg.
  - exists rc, pc, g. repeat split; [lia|lia|done].
  - rewrite serve_cons, app_registry.
    destruct r as [now|[|kv data]|].
    + rewrite inc_REQUEST_COUNT_with, set_RANDOM_GAUGE_with.
      destruct (IH (rc + 1)%Z pc (py_mod now 60))
        as (rc2 & pc2 & g2 & -> & ? & ? & ?);
        [apply py_mod_60_range|].
      exists rc2, pc2, g2. repeat split; [lia|lia|done].
    + destruct (IH rc pc g Hg) as (rc2 & pc2 & g2 & -> & ? & ? & ?).
      exists rc2, pc2, g2. repeat split; [lia|lia|done].
    + rewrite inc_POST_REQUEST_COUNT_with.
      destruct (IH rc (pc + 1)%Z g Hg) as (rc2 & pc2 & g2 & -> & ? & ? & ?).
      exists rc2, pc2, g2. repeat split; [lia|lia|done].
    + destruct (IH rc pc g Hg) as (rc2 & pc2 & g2 & -> & ? & ? & ?).
      exists rc2, pc2, g2. repeat split; [lia|lia|done].
Qed.

Lemma py_mod_60_minutes (x : Q) :
  (x == 60 * inject_Z (Qfloor (x / 60)) + py_mod x 60)%Q.
Proof. unfold py_mod. ring. Qed.

(** From here on the float formatter is assumed to print plain decimal
    numbers. *)
Hypothesis float_repr_decimal : prints_decimals float_repr.

(** C4: a call to [GET /] at wall-clock time [now] stores [now] modulo 60
    in [random_gauge]: the stored value [g] lies in the half-open interval
    [0, 60) and differs from [now] by a whole number of minutes. The gauge
    still holds [g] after any further requests other than [GET /], and
    the text of a scrape made then carries [g] as the sample of
    [random_gauge], printed as a decimal number that itself lies in
    [0, 60). *)
Theorem root_stores_seconds_of_the_minute
    (earlier between : list Request) (now : Q) :
  forallb (fun r => negb (is_GET_root r)) between = true ->
  ∃ (g : Q) (k : Z) (text : string) (rc pc : Z) (v : Q),
    gauge_value RANDOM_GAUGE (app (GET_root now) (serve earlier REGISTRY)).2
      = Some g
    ∧ (now == 60 * inject_Z k + g)%Q ∧ (0 <= g)%Q ∧ (g < 60)%Q
    ∧ gauge_value RANDOM_GAUGE
        (serve (earlier ++ GET_root now :: between) REGISTRY) = Some g
    ∧ (app GET_metrics
         (serve (earlier ++ GET_root now :: between) REGISTRY)).1 =
        {| status_code := 200; body := RawBody text CONTENT_TYPE_LATEST |}
    ∧ parse_exposition text =
        Some (declared_families (string_of_Z rc) (string_of_Z pc)
                                (float_repr g))
    ∧ read_decimal (float_repr g) = Some v
    ∧ (0 <= v)%Q ∧ (v < 60)%Q ∧ (v <= g)%Q ∧ (g < v + (1 # 1000000))%Q.
Proof.
  intros Hbetween.
  destruct (py_mod_60_range now) as [Hlo Hhi].
  destruct (float_repr_decimal (py_mod now 60) Hlo) as (v & Hv & Hv0 & Hvg & Hgv).
  destruct (serve_registry_with earlier 0 0 0) as (rc0 & pc0 & g0 & Hreg & _).
  fold REGISTRY in Hreg.
  assert (Hroot : (app (GET_root now) (serve earlier REGISTRY)).2
                  = registry_with (rc0 + 1) pc0 (py_mod now 60)).
  { rewrite Hreg, app_registry.
    by rewrite inc_REQUEST_COUNT_with, set_RANDOM_GAUGE_with. }
  assert (Hserve : serve (earlier ++ GET_root now :: between) REGISTRY
                   = serve between (registry_with (rc0 + 1) pc0 (py_mod now 60))).
  { by rewrite serve_app, serve_cons, Hroot. }
  destruct (serve_registry_with between (rc0 + 1) pc0 (py_mod now 60))
    as (rc & pc & g & Hafter & _).
  assert (Hg : g = py_mod now 60).
  { pose proof (serve_gauge_other between
                  (registry_with (rc0 + 1) pc0 (py_mod now 60)) Hbetween) as H.
    rewrite Hafter, !gauge_value_RANDOM_GAUGE_with in H. by injection H. }
  subst g.
  exists (py_mod now 60), (Qfloor (now / 60)),
         (generate_latest (registry_with rc pc (py_mod now 60))), rc, pc, v.
  rewrite Hroot, Hserve, Hafter, app_metrics, parse_exposition_with.
  rewrite gauge_value_RANDOM_GAUGE_with.
  repeat split; try done; [apply py_mod_60_minutes|lra].
Qed.

(** C7: the text returned by [GET /metrics], read back as an exposition
    document, consists of exactly three metric families, one
    HELP/TYPE/sample triple for each declared metric ([request_count] and
    [post_request_count] of type counter, [random_gauge] of type gauge);
    the two counter samples are decimal integers, equal to the counter
    values, and at a later scrape they are not smaller; the gauge sample
    is a decimal number with a fractional part, equal to the gauge value
    or cut less than a millionth below it. *)
Theorem scrape_parses_to_three_families (earlier between : list Request) :
  ∃ (text text' : string) (rc pc rc' pc' : Z) (g g' v v' : Q),
    (app GET_metrics (serve earlier REGISTRY)).1 =
      {| status_code := 200; body := RawBody text CONTENT_TYPE_LATEST |}
    ∧ (app GET_metrics (serve (earlier ++ between) REGISTRY)).1 =
        {| status_code := 200; body := RawBody text' CONTENT_TYPE_LATEST |}
    ∧ parse_exposition text =
        Some (declared_families (string_of_Z rc) (string_of_Z pc) (float_repr g))
    ∧ parse_exposition text' =
        Some (declared_families (string_of_Z rc') (string_of_Z pc')
                                (float_repr g'))
    ∧ length (declared_families (string_of_Z rc) (string_of_Z pc)
                                (float_repr g)) = 3%nat
    ∧ Z_of_string (string_of_Z rc) = Some rc
    ∧ Z_of_string (string_of_Z pc) = Some pc
    ∧ Z_of_string (string_of_Z rc') = Some rc'
    ∧ Z_of_string (string_of_Z pc') = Some pc'
    ∧ counter_value REQUEST_COUNT (serve earlier REGISTRY) = Some rc
    ∧ counter_value POST_REQUEST_COUNT (serve earlier REGISTRY) = Some pc
    ∧ gauge_value RANDOM_GAUGE (serve earlier REGISTRY) = Some g
    ∧ counter_value REQUEST_COUNT (serve (earlier ++ between) REGISTRY)
        = Some rc'
    ∧ counter_value POST_REQUEST_COUNT (serve (earlier ++ between) REGISTRY)
        = Some pc'
    ∧ gauge_value RANDOM_GAUGE (serve (earlier ++ between) REGISTRY) = Some g'
    ∧ (0 <= rc)%Z ∧ (rc <= rc')%Z ∧ (0 <= pc)%Z ∧ (pc <= pc')%Z
    ∧ read_decimal (float_repr g) = Some v
    ∧ (v <= g)%Q ∧ (g < v + (1 # 1000000))%Q
    ∧ read_decimal (float_repr g') = Some v'
    ∧ (v' <= g')%Q ∧ (g' < v' + (1 # 1000000))%Q.
Proof.
  rewrite serve_app.
  destruct (serve_registry_with_gauge earlier 0 0 0)
    as (rc & pc & g & Hreg & ? & ? & Hg); [done|].
  fold REGISTRY in Hreg. rewrite Hreg.
  destruct (serve_registry_with_gauge between rc pc g Hg)
    as (rc' & pc' & g' & -> & ? & ? & Hg').
  destruct (float_repr_decimal g Hg) as (v & Hv & _ & ? & ?).
  destruct (float_repr_decimal g' Hg') as (v' & Hv' & _ & ? & ?).
  exists (generate_latest (registry_with rc pc g)),
         (generate_latest (registry_with rc' pc' g')),
         rc, pc, rc', pc', g, g', v, v'.
  rewrite !app_metrics, !parse_exposition_with, !Z_of_string_of_Z.
  repeat split; done.
Qed.

(** ** Any pool of requests, any order *)

(** X8: whatever requests of whatever routes are pending together and in
    whatever order the event loop runs them, once none is pending
    [request_count] has grown by the number of [GET /] requests of the
    pool and [post_request_count] by the number of its submits with a
    non-empty payload; the registered names are unchanged. *)
Theorem drained_loop_counts_the_pool
    (reg : CollectorRegistry) (pool : list Request) (final : Server)
    (v w : Z) :
  rtc loop_step {| registry := reg; pending := pool |} final ->
  pending final = [] ->
  counter_value REQUEST_COUNT reg = Some v ->
  counter_value POST_REQUEST_COUNT reg = Some w ->
  counter_value REQUEST_COUNT (registry final)
    = Some (v + Z.of_nat (length (List.filter is_GET_root pool)))%Z
  ∧ counter_value POST_REQUEST_COUNT (registry final)
    = Some (w + Z.of_nat (length (List.filter is_accepted_submit pool)))%Z
  ∧ names (registry final) = names reg.
Proof.
  intros Hrun Hdone Hv Hw.
  destruct (loop_run_is_sequential _ _ Hrun) as (served & Hperm & Hreg).
  rewrite Hdone, app_nil_r in Hperm. simpl in Hperm, Hreg.
  rewrite Hreg, serve_request_count, serve_post_request_count, names_serve.
  rewrite Hv, Hw.
  rewrite (count_roots_Permutation _ _ Hperm),
          (count_submits_Permutation _ _ Hperm).
  done.
Qed.

End Service.

(** * The theorems at concrete inputs *)

Lemma root_greets_and_counts_witness :
  counter_value REQUEST_COUNT
    (serve decimal_repr text_plain [GET_root 1; GET_root 2] REGISTRY) = Some 2%Z
  ∧ ∃ reg',
      root 3 (serve decimal_repr text_plain [GET_root 1; GET_root 2] REGISTRY)
        = (Return greeting, reg')
      ∧ greeting = JObject [("message", JString "Hello World")]
      ∧ app decimal_repr text_plain (GET_root 3)
            (serve decimal_repr text_plain [GET_root 1; GET_root 2] REGISTRY) =
          ({| status_code := 200; body := JSONBody greeting |}, reg')
      ∧ counter_value REQUEST_COUNT reg' = Some (2 + 1)%Z.
Proof.
  split; [reflexivity|].
  apply (root_greets_and_counts decimal_repr text_plain 3
           (serve decimal_repr text_plain [GET_root 1; GET_root 2] REGISTRY) 2).
  reflexivity.
Defined.


Lemma concurrent_roots_all_counted_witness :
  rtc (loop_step decimal_repr text_plain)
      {| registry := REGISTRY; pending := map GET_root [1%Q; 2%Q; 3%Q] |}
      {| registry :=
           serve decimal_repr text_plain
                 [GET_root 2; GET_root 3; GET_root 1] REGISTRY;
         pending := [] |}
  ∧ counter_value REQUEST_COUNT
      (serve decimal_repr text_plain
             [GET_root 2; GET_root 3; GET_root 1] REGISTRY)
    = Some (Z.of_nat (length [1%Q; 2%Q; 3%Q])).
Proof.
  assert (Hrun : rtc (loop_step decimal_repr text_plain)
      {| registry := REGISTRY; pending := map GET_root [1%Q; 2%Q; 3%Q] |}
      {| registry :=
           serve decimal_repr text_plain
                 [GET_root 2; GET_root 3; GET_root 1] REGISTRY;
         pending := [] |}).
  { eapply rtc_l;
      [exact (loop_run decimal_repr text_plain REGISTRY
                [GET_root 1] (GET_root 2) [GET_root 3])|].
    eapply rtc_l;
      [exact (loop_run decimal_repr text_plain _
                [GET_root 1] (GET_root 3) [])|].
    eapply rtc_l;
      [exact (loop_run decimal_repr text_plain _ [] (GET_root 1) [])|].
    apply rtc_refl. }
  split; [exact Hrun|].
  exact (proj2 (proj2 (concurrent_roots_all_counted decimal_repr text_plain
                         [1%Q; 2%Q; 3%Q])) _ Hrun eq_refl).
Defined.

Lemma handlers_touch_only_their_metrics_witness :
  POST_REQUEST_COUNT ≠ REQUEST_COUNT
  ∧ POST_REQUEST_COUNT ≠ RANDOM_GAUGE
  ∧ collectors (app decimal_repr text_plain (GET_root 5) REGISTRY).2
      !! POST_REQUEST_COUNT
    = collectors REGISTRY !! POST_REQUEST_COUNT.
Proof.
  split; [discriminate|]. split; [discriminate|].
  destruct (handlers_touch_only_their_metrics decimal_repr text_plain REGISTRY)
    as (_ & _ & Hroot & _).
  apply Hroot; discriminate.
Defined.

Lemma request_count_counts_the_roots_witness :
  counter_value REQUEST_COUNT REGISTRY = Some 0%Z
  ∧ counter_value REQUEST_COUNT
      (serve decimal_repr text_plain
         [GET_root 1; POST_submit []; GET_metrics; GET_root 2;
          POST_submit [("a", JNull)]] REGISTRY)
    = Some 2%Z.
Proof.
  split; [reflexivity|].
  exact (request_count_counts_the_roots decimal_repr text_plain
           [GET_root 1; POST_submit []; GET_metrics; GET_root 2;
            POST_submit [("a", JNull)]] REGISTRY 0 eq_refl).
Defined.

Lemma post_request_count_counts_accepted_submits_witness :
  counter_value POST_REQUEST_COUNT REGISTRY = Some 0%Z
  ∧ counter_value POST_REQUEST_COUNT
      (serve decimal_repr text_plain
         [GET_root 1; POST_submit []; GET_metrics; GET_root 2;
          POST_submit [("a", JNull)]] REGISTRY)
    = Some 1%Z.
Proof.
  split; [reflexivity|].
  exact (post_request_count_counts_accepted_submits decimal_repr text_plain
           [GET_root 1; POST_submit []; GET_metrics; GET_root 2;
            POST_submit [("a", JNull)]] REGISTRY 0 eq_refl).
Defined.

Lemma gauge_holds_the_last_root_time_witness :
  gauge_value RANDOM_GAUGE REGISTRY = Some 0%Q
  ∧ gauge_value RANDOM_GAUGE
      (serve decimal_repr text_plain
         [GET_root 61; GET_root (125 # 2); POST_submit [("a", JNull)];
          GET_metrics] REGISTRY)
    = Some (py_mod (125 # 2) 60).
Proof.
  split; [reflexivity|].
  exact (gauge_holds_the_last_root_time decimal_repr text_plain
           [GET_root 61; GET_root (125 # 2); POST_submit [("a", JNull)];
            GET_metrics] REGISTRY 0 eq_refl).
Defined.

Lemma counters_ignore_the_order_witness :
  [GET_root 1; POST_submit [("a", JNull)]]
    ≡ₚ [POST_submit [("a", JNull)]; GET_root 1]
  ∧ counter_value REQUEST_COUNT
      (serve decimal_repr text_plain
         [GET_root 1; POST_submit [("a", JNull)]] REGISTRY)
    = counter_value REQUEST_COUNT
        (serve decimal_repr text_plain
           [POST_submit [("a", JNull)]; GET_root 1] REGISTRY)
  ∧ counter_value POST_REQUEST_COUNT
      (serve decimal_repr text_plain
         [GET_root 1; POST_submit [("a", JNull)]] REGISTRY)
    = counter_value POST_REQUEST_COUNT
        (serve decimal_repr text_plain
           [POST_submit [("a", JNull)]; GET_root 1] REGISTRY).
Proof.
  split; [apply perm_swap|].
  apply (counters_ignore_the_order decimal_repr text_plain).
  apply perm_swap.
Defined.

Lemma gauge_is_the_seconds_of_the_minute_witness :
  is_Some (gauge_value RANDOM_GAUGE REGISTRY)
  ∧ (1234567 # 100 == 60 * inject_Z 205 + (4567 # 100))%Q
  ∧ (0 <= 4567 # 100)%Q ∧ (4567 # 100 < 60)%Q
  ∧ ∃ g, gauge_value RANDOM_GAUGE
           (app decimal_repr text_plain (GET_root (1234567 # 100)) REGISTRY).2
         = Some g
         ∧ (g == 4567 # 100)%Q.
Proof.
  split; [eexists; reflexivity|]. split; [reflexivity|].
  split; [discriminate|]. split; [reflexivity|].
  apply (gauge_is_the_seconds_of_the_minute decimal_repr text_plain
           (1234567 # 100) (4567 # 100) 205 REGISTRY);
    [eexists; reflexivity|reflexivity|discriminate|reflexivity].
Defined.

Lemma gauge_repeats_every_minute_witness :
  is_Some (gauge_value RANDOM_GAUGE REGISTRY)
  ∧ ∃ g g',
      gauge_value RANDOM_GAUGE
        (app decimal_repr text_plain (GET_root (25 # 2)) REGISTRY).2 = Some g
      ∧ gauge_value RANDOM_GAUGE
          (app decimal_repr text_plain
               (GET_root ((25 # 2) + 60 * inject_Z 3)) REGISTRY).2 = Some g'
      ∧ (g' == g)%Q.
Proof.
  split; [eexists; reflexivity|].
  apply (gauge_repeats_every_minute decimal_repr text_plain (25 # 2) 3 REGISTRY).
  eexists; reflexivity.
Defined.



Lemma root_stores_seconds_of_the_minute_witness :
  (∀ q, one_line (decimal_repr q) = true)
  ∧ prints_decimals decimal_repr
  ∧ forallb (fun r => negb (is_GET_root r))
            [POST_submit [("a", JNull)]; GET_metrics] = true
  ∧ ∃ (g : Q) (k : Z) (v : Q),
      gauge_value RANDOM_GAUGE
        (app decimal_repr text_plain (GET_root (1234567 # 100))
             (serve decimal_repr text_plain [GET_root 5] REGISTRY)).2 = Some g
      ∧ (1234567 # 100 == 60 * inject_Z k + g)%Q ∧ (0 <= g)%Q ∧ (g < 60)%Q
      ∧ read_decimal (decimal_repr g) = Some v
      ∧ (0 <= v)%Q ∧ (v < 60)%Q.
Proof.
  split; [exact one_line_decimal_repr|].
  split; [exact prints_decimals_decimal_repr|]. split; [reflexivity|].
  destruct (root_stores_seconds_of_the_minute decimal_repr text_plain
              one_line_decimal_repr prints_decimals_decimal_repr
              [GET_root 5] [POST_submit [("a", JNull)]; GET_metrics]
              (1234567 # 100) eq_refl)
    as (g & k & text & rc & pc & v & H).
  exists g, k, v. tauto.
Defined.

Lemma scrape_parses_to_three_families_witness :
  (∀ q, one_line (decimal_repr q) = true)
  ∧ prints_decimals decimal_repr
  ∧ ∃ (text : string) (rc pc : Z) (g v : Q),
      (app decimal_repr text_plain GET_metrics
         (serve decimal_repr text_plain
            [GET_root 5; POST_submit [("a", JNull)]] REGISTRY)).1 =
        {| status_code := 200; body := RawBody text text_plain |}
      ∧ parse_exposition text =
          Some (declared_families (string_of_Z rc) (string_of_Z pc)
                                  (decimal_repr g))
      ∧ read_decimal (decimal_repr g) = Some v
      ∧ (v <= g)%Q ∧ (g < v + (1 # 1000000))%Q.
Proof.
  split; [exact one_line_decimal_repr|].
  split; [exact prints_decimals_decimal_repr|].
  destruct (scrape_parses_to_three_families decimal_repr text_plain
              one_line_decimal_repr prints_decimals_decimal_repr
              [GET_root 5; POST_submit [("a", JNull)]] [GET_root 7])
    as (text & text' & rc & pc & rc' & pc' & g & g' & v & v' & H).
  exists text, rc, pc, g, v. tauto.
Defined.

Lemma drained_loop_counts_the_pool_witness :
  rtc (loop_step decimal_repr text_plain)
      {| registry := REGISTRY;
         pending := [GET_root 1; POST_submit [("a", JNull)]; GET_metrics;
                     POST_submit []] |}
      {| registry :=
           serve decimal_repr text_plain
                 [GET_metrics; POST_submit [("a", JNull)]; POST_submit [];
                  GET_root 1] REGISTRY;
         pending := [] |}
  ∧ counter_value REQUEST_COUNT REGISTRY = Some 0%Z
  ∧ counter_value POST_REQUEST_COUNT REGISTRY = Some 0%Z
  ∧ counter_value REQUEST_COUNT
      (serve decimal_repr text_plain
             [GET_metrics; POST_submit [("a", JNull)]; POST_submit [];
              GET_root 1] REGISTRY) = Some 1%Z
  ∧ counter_value POST_REQUEST_COUNT
      (serve decimal_repr text_plain
             [GET_metrics; POST_submit [("a", JNull)]; POST_submit [];
              GET_root 1] REGISTRY) = Some 1%Z.
Proof.
  assert (Hrun : rtc (loop_step decimal_repr text_plain)
      {| registry := REGISTRY;
         pending := [GET_root 1; POST_submit [("a", JNull)]; GET_metrics;
                     POST_submit []] |}
      {| registry :=
           serve decimal_repr text_plain
                 [GET_metrics; POST_submit [("a", JNull)]; POST_submit [];
                  GET_root 1] REGISTRY;
         pending := [] |}).
  { eapply rtc_l;
      [exact (loop_run decimal_repr text_plain REGISTRY
                [GET_root 1; POST_submit [("a", JNull)]] GET_metrics
                [POST_submit []])|].
    eapply rtc_l;
      [exact (loop_run decimal_repr text_plain _
                [GET_root 1] (POST_submit [("a", JNull)]) [POST_submit []])|].
    eapply rtc_l;
      [exact (loop_run decimal_repr text_plain _
                [GET_root 1] (POST_submit []) [])|].
    eapply rtc_l;
      [exact (loop_run decimal_repr text_plain _ [] (GET_root 1) [])|].
    apply rtc_refl. }
  split; [exact Hrun|]. split; [reflexivity|]. split; [reflexivity|].
  destruct (drained_loop_counts_the_pool decimal_repr text_plain
              REGISTRY
              [GET_root 1; POST_submit [("a", JNull)]; GET_metrics;
               POST_submit []]
              _ 0 0 Hrun eq_refl eq_refl eq_refl) as (H1 & H2 & _).
  split; [exact H1|exact H2].
Defined.
